(** * fury/type/type.h: the TypeId registry and the namespace classifier

    A shallow embedding of [cpp/fury/type/type.h]:

    - [enum class TypeId : int32_t] becomes the inductive [TypeId] (one
      constructor per enumerator, in the order of the header) together with
      [value], which gives each enumerator its explicit initialiser;
    - the identifier of each enumerator is kept as a string by [name];
    - [int32_t] is [Z] restricted by [in_int32];
    - [IsNamespacedType] is embedded twice: as the statement list of its body
      ([IsNamespacedType_body], run by [exec_switch] and described by the
      relation [Returns]) and as the function [IsNamespacedType] that the
      switch computes.  [IsNamespacedType_exec_eq] links the two;
    - what a call does to the rest of the program is read off a third
      rendering of the same body, [IsNamespacedType_cmds], in a statement
      language that can also read and write memory, allocate and throw, run
      by [run_switch] over a [state] (memory contents and allocation count).
      [IsNamespacedType_cmds_eq] and [IsNamespacedType_call_eq] link it to
      the other two. *)

From Stdlib Require Import String ZArith List Bool Lia.
Import ListNotations.

Local Open Scope Z_scope.

Module fury.

(** ** [int32_t] *)

Definition int32_min : Z := - 2 ^ 31.
Definition int32_max : Z := 2 ^ 31 - 1.

Definition in_int32 (v : Z) : Prop := int32_min <= v <= int32_max.

(** ** [enum class TypeId : int32_t] *)

Inductive TypeId : Set :=
  | BOOL
  | INT8
  | INT16
  | INT32
  | VAR_INT32
  | INT64
  | VAR_INT64
  | SLI_INT64
  | FLOAT16
  | FLOAT32
  | FLOAT64
  | STRING
  | ENUM
  | NS_ENUM
  | STRUCT
  | POLYMORPHIC_STRUCT
  | COMPATIBLE_STRUCT
  | POLYMORPHIC_COMPATIBLE_STRUCT
  | NS_STRUCT
  | NS_POLYMORPHIC_STRUCT
  | NS_COMPATIBLE_STRUCT
  | NS_POLYMORPHIC_COMPATIBLE_STRUCT
  | EXT
  | POLYMORPHIC_EXT
  | NS_EXT
  | NS_POLYMORPHIC_EXT
  | LIST
  | SET
  | MAP
  | DURATION
  | TIMESTAMP
  | LOCAL_DATE
  | DECIMAL
  | BINARY
  | ARRAY
  | BOOL_ARRAY
  | INT8_ARRAY
  | INT16_ARRAY
  | INT32_ARRAY
  | INT64_ARRAY
  | FLOAT16_ARRAY
  | FLOAT32_ARRAY
  | FLOAT64_ARRAY
  | ARROW_RECORD_BATCH
  | ARROW_TABLE.

(** The initialiser written after each enumerator. *)
Definition value (t : TypeId) : Z :=
  match t with
  | BOOL => 1
  | INT8 => 2
  | INT16 => 3
  | INT32 => 4
  | VAR_INT32 => 5
  | INT64 => 6
  | VAR_INT64 => 7
  | SLI_INT64 => 8
  | FLOAT16 => 9
  | FLOAT32 => 10
  | FLOAT64 => 11
  | STRING => 12
  | ENUM => 13
  | NS_ENUM => 14
  | STRUCT => 15
  | POLYMORPHIC_STRUCT => 16
  | COMPATIBLE_STRUCT => 17
  | POLYMORPHIC_COMPATIBLE_STRUCT => 18
  | NS_STRUCT => 19
  | NS_POLYMORPHIC_STRUCT => 20
  | NS_COMPATIBLE_STRUCT => 21
  | NS_POLYMORPHIC_COMPATIBLE_STRUCT => 22
  | EXT => 23
  | POLYMORPHIC_EXT => 24
  | NS_EXT => 25
  | NS_POLYMORPHIC_EXT => 26
  | LIST => 27
  | SET => 28
  | MAP => 29
  | DURATION => 30
  | TIMESTAMP => 31
  | LOCAL_DATE => 32
  | DECIMAL => 33
  | BINARY => 34
  | ARRAY => 35
  | BOOL_ARRAY => 36
  | INT8_ARRAY => 37
  | INT16_ARRAY => 38
  | INT32_ARRAY => 39
  | INT64_ARRAY => 40
  | FLOAT16_ARRAY => 41
  | FLOAT32_ARRAY => 42
  | FLOAT64_ARRAY => 43
  | ARROW_RECORD_BATCH => 44
  | ARROW_TABLE => 45
  end.

(** Every enumerator of the header, in declaration order. *)
Definition enumerators : list TypeId :=
  [ BOOL; INT8; INT16; INT32; VAR_INT32; INT64; VAR_INT64; SLI_INT64;
    FLOAT16; FLOAT32; FLOAT64; STRING; ENUM; NS_ENUM; STRUCT;
    POLYMORPHIC_STRUCT; COMPATIBLE_STRUCT; POLYMORPHIC_COMPATIBLE_STRUCT;
    NS_STRUCT; NS_POLYMORPHIC_STRUCT; NS_COMPATIBLE_STRUCT;
    NS_POLYMORPHIC_COMPATIBLE_STRUCT; EXT; POLYMORPHIC_EXT; NS_EXT;
    NS_POLYMORPHIC_EXT; LIST; SET; MAP; DURATION; TIMESTAMP; LOCAL_DATE;
    DECIMAL; BINARY; ARRAY; BOOL_ARRAY; INT8_ARRAY; INT16_ARRAY; INT32_ARRAY;
    INT64_ARRAY; FLOAT16_ARRAY; FLOAT32_ARRAY; FLOAT64_ARRAY;
    ARROW_RECORD_BATCH; ARROW_TABLE ].

(** [static_cast<TypeId>(type_id)]: the enumeration has the fixed underlying
    type [int32_t], so every [int32_t] is a value of the enumeration and the
    cast keeps the integer as it is.  A value of the enumeration is therefore
    carried as its underlying integer, whether an enumerator names it or not. *)
Definition static_cast_TypeId (type_id : Z) : Z := type_id.

(** The enumerator that names an integer, if there is one. *)
Definition enumerator_of (v : Z) : option TypeId :=
  find (fun t => value t =? v) enumerators.

(** ** [IsNamespacedType]: the body as statements *)

(** The three kinds of statement in the body of the [switch]. *)
Inductive stmt : Set :=
  | Case (label : TypeId)
  | Default
  | Return (b : bool).

(** The statements between the braces of the [switch], in source order. *)
Definition IsNamespacedType_body : list stmt :=
  [ Case NS_ENUM;
    Case NS_STRUCT;
    Case NS_POLYMORPHIC_STRUCT;
    Case NS_COMPATIBLE_STRUCT;
    Case NS_POLYMORPHIC_COMPATIBLE_STRUCT;
    Case NS_EXT;
    Case NS_POLYMORPHIC_EXT;
    Return true;
    Default;
    Return false ].

(** Control entering a statement list runs through labels until a [return];
    running off the end returns nothing. *)
Fixpoint fall_through (ss : list stmt) : option bool :=
  match ss with
  | [] => None
  | Return b :: _ => Some b
  | Case _ :: rest => fall_through rest
  | Default :: rest => fall_through rest
  end.

(** The statements after the [case] label whose constant equals [c]. *)
Fixpoint jump_case (c : Z) (ss : list stmt) : option (list stmt) :=
  match ss with
  | [] => None
  | Case label :: rest =>
      if c =? value label then Some rest else jump_case c rest
  | _ :: rest => jump_case c rest
  end.

(** The statements after the [default] label. *)
Fixpoint jump_default (ss : list stmt) : option (list stmt) :=
  match ss with
  | [] => None
  | Default :: rest => Some rest
  | _ :: rest => jump_default rest
  end.

(** [switch (c) { ss }] as the last statement of a function returning [bool]:
    jump to the matching [case], else to [default], else past the switch,
    where the function ends without a [return]. *)
Definition exec_switch (c : Z) (ss : list stmt) : option bool :=
  match jump_case c ss with
  | Some rest => fall_through rest
  | None =>
      match jump_default ss with
      | Some rest => fall_through rest
      | None => None
      end
  end.

Definition IsNamespacedType_exec (type_id : Z) : option bool :=
  exec_switch (static_cast_TypeId type_id) IsNamespacedType_body.

(** ** [IsNamespacedType]: the function the switch computes *)

Definition IsNamespacedType (type_id : Z) : bool :=
  let c := static_cast_TypeId type_id in
  if c =? value NS_ENUM then true
  else if c =? value NS_STRUCT then true
  else if c =? value NS_POLYMORPHIC_STRUCT then true
  else if c =? value NS_COMPATIBLE_STRUCT then true
  else if c =? value NS_POLYMORPHIC_COMPATIBLE_STRUCT then true
  else if c =? value NS_EXT then true
  else if c =? value NS_POLYMORPHIC_EXT then true
  else false.

(** ** [IsNamespacedType]: the runs of the body, as a relation *)

(** [FallsTo ss b]: control entering [ss] reaches [return b]. *)
Inductive FallsTo : list stmt -> bool -> Prop :=
  | FallsTo_return b rest : FallsTo (Return b :: rest) b
  | FallsTo_case label rest b : FallsTo rest b -> FallsTo (Case label :: rest) b
  | FallsTo_default rest b : FallsTo rest b -> FallsTo (Default :: rest) b.

(** [JumpsCase c ss rest]: some [case] label of [ss] has the constant [c], and
    [rest] is what follows it. *)
Inductive JumpsCase (c : Z) : list stmt -> list stmt -> Prop :=
  | JumpsCase_here label rest :
      c = value label -> JumpsCase c (Case label :: rest) rest
  | JumpsCase_later s ss rest :
      JumpsCase c ss rest -> JumpsCase c (s :: ss) rest.

(** [JumpsDefault ss rest]: [ss] has a [default] label followed by [rest]. *)
Inductive JumpsDefault : list stmt -> list stmt -> Prop :=
  | JumpsDefault_here rest : JumpsDefault (Default :: rest) rest
  | JumpsDefault_later s ss rest :
      JumpsDefault ss rest -> JumpsDefault (s :: ss) rest.

(** The constants of the [case] labels of a statement list. *)
Fixpoint case_constants (ss : list stmt) : list Z :=
  match ss with
  | [] => []
  | Case label :: rest => value label :: case_constants rest
  | _ :: rest => case_constants rest
  end.

(** The number of [default] labels of a statement list. *)
Fixpoint default_count (ss : list stmt) : nat :=
  match ss with
  | [] => O
  | Default :: rest => S (default_count rest)
  | _ :: rest => default_count rest
  end.

(** What the language requires of a [switch]: no two [case] labels with the
    same constant, and at most one [default]. *)
Definition well_formed_switch (ss : list stmt) : Prop :=
  NoDup (case_constants ss) /\ (default_count ss <= 1)%nat.

(** [Returns ss c b]: the [switch] on [c] with body [ss] returns [b], through
    a matching [case], or through [default] when no [case] matches. *)
Inductive Returns (ss : list stmt) (c : Z) (b : bool) : Prop :=
  | Returns_case rest :
      JumpsCase c ss rest -> FallsTo rest b -> Returns ss c b
  | Returns_default rest :
      ~ In c (case_constants ss) ->
      JumpsDefault ss rest -> FallsTo rest b -> Returns ss c b.

(** A call [IsNamespacedType(type_id)] returns [b]. *)
Definition IsNamespacedType_returns (type_id : Z) (b : bool) : Prop :=
  Returns IsNamespacedType_body (static_cast_TypeId type_id) b.

(** ** The seven namespaced values, and the defined range *)

(** The seven values the specification lists as namespaced. *)
Definition namespaced_values : list Z := [14; 19; 20; 21; 22; 25; 26].

(** The integers [lo, lo + 1, ..., lo + n - 1]. *)
Fixpoint Zrange (lo : Z) (n : nat) : list Z :=
  match n with
  | O => []
  | S n' => lo :: Zrange (lo + 1) n'
  end.

(** Membership in a list of integers, as a test. *)
Definition Zmem (v : Z) (l : list Z) : bool := existsb (Z.eqb v) l.

(** ** The identifiers of the enumerators *)

(** The identifier of each enumerator, as it is spelled in the header. *)
Definition name (t : TypeId) : string :=
  match t with
  | BOOL => "BOOL"
  | INT8 => "INT8"
  | INT16 => "INT16"
  | INT32 => "INT32"
  | VAR_INT32 => "VAR_INT32"
  | INT64 => "INT64"
  | VAR_INT64 => "VAR_INT64"
  | SLI_INT64 => "SLI_INT64"
  | FLOAT16 => "FLOAT16"
  | FLOAT32 => "FLOAT32"
  | FLOAT64 => "FLOAT64"
  | STRING => "STRING"
  | ENUM => "ENUM"
  | NS_ENUM => "NS_ENUM"
  | STRUCT => "STRUCT"
  | POLYMORPHIC_STRUCT => "POLYMORPHIC_STRUCT"
  | COMPATIBLE_STRUCT => "COMPATIBLE_STRUCT"
  | POLYMORPHIC_COMPATIBLE_STRUCT => "POLYMORPHIC_COMPATIBLE_STRUCT"
  | NS_STRUCT => "NS_STRUCT"
  | NS_POLYMORPHIC_STRUCT => "NS_POLYMORPHIC_STRUCT"
  | NS_COMPATIBLE_STRUCT => "NS_COMPATIBLE_STRUCT"
  | NS_POLYMORPHIC_COMPATIBLE_STRUCT => "NS_POLYMORPHIC_COMPATIBLE_STRUCT"
  | EXT => "EXT"
  | POLYMORPHIC_EXT => "POLYMORPHIC_EXT"
  | NS_EXT => "NS_EXT"
  | NS_POLYMORPHIC_EXT => "NS_POLYMORPHIC_EXT"
  | LIST => "LIST"
  | SET => "SET"
  | MAP => "MAP"
  | DURATION => "DURATION"
  | TIMESTAMP => "TIMESTAMP"
  | LOCAL_DATE => "LOCAL_DATE"
  | DECIMAL => "DECIMAL"
  | BINARY => "BINARY"
  | ARRAY => "ARRAY"
  | BOOL_ARRAY => "BOOL_ARRAY"
  | INT8_ARRAY => "INT8_ARRAY"
  | INT16_ARRAY => "INT16_ARRAY"
  | INT32_ARRAY => "INT32_ARRAY"
  | INT64_ARRAY => "INT64_ARRAY"
  | FLOAT16_ARRAY => "FLOAT16_ARRAY"
  | FLOAT32_ARRAY => "FLOAT32_ARRAY"
  | FLOAT64_ARRAY => "FLOAT64_ARRAY"
  | ARROW_RECORD_BATCH => "ARROW_RECORD_BATCH"
  | ARROW_TABLE => "ARROW_TABLE"
  end%string.

(** The enumerator with a given identifier, if there is one. *)
Definition enumerator_named (s : string) : option TypeId :=
  find (fun t => String.eqb (name t) s) enumerators.

(** [mentions w s]: the word [w] occurs in the identifier [s]. *)
Definition mentions (w s : string) : bool :=
  match String.index 0 w s with
  | Some _ => true
  | None => false
  end.

(** A flag as the integer 0 or 1. *)
Definition flag (b : bool) : Z := if b then 1 else 0.

(** The test [lo <= v <= hi]. *)
Definition in_range (lo hi v : Z) : bool := (lo <=? v) && (v <=? hi).

(** ** [IsNamespacedType]: a call and the state around it *)

(** What a call can see or touch outside its own frame: the contents of the
    objects of the program (globals, statics and heap cells, by address) and
    the number of heap allocations made so far.  The parameter [type_id] is
    passed by value and lives in the frame, not here. *)
Record state : Type := mkState {
  store : Z -> Z;
  allocations : nat
}.

Definition write (st : state) (addr x : Z) : state :=
  {| store := fun a => if a =? addr then x else store st a;
     allocations := allocations st |}.

Definition allocate (st : state) : state :=
  {| store := store st; allocations := S (allocations st) |}.

(** The operand of a [return] or of an assignment: a literal, or the value of
    an object converted to [bool]. *)
Inductive expr : Set :=
  | Lit (b : bool)
  | Read (addr : Z).

Definition eval (st : state) (e : expr) : bool :=
  match e with
  | Lit b => b
  | Read addr => negb (store st addr =? 0)
  end.

(** Statements of a [switch] body, with the kinds that act on the state: an
    assignment to an object, a [new], a [throw]. *)
Inductive cmd : Set :=
  | CCase (label : TypeId)
  | CDefault
  | CReturn (e : expr)
  | CWrite (addr : Z) (e : expr)
  | CNew
  | CThrow.

(** How a call ends: with a result, with an exception, or by leaving the
    function without a [return]; the first two with the state they leave. *)
Inductive outcome : Type :=
  | Returned (b : bool) (st : state)
  | Thrown (st : state)
  | Undefined.

(** The body of [IsNamespacedType] in this language: labels and [return]s of
    literals, as in the header. *)
Definition IsNamespacedType_cmds : list cmd :=
  [ CCase NS_ENUM;
    CCase NS_STRUCT;
    CCase NS_POLYMORPHIC_STRUCT;
    CCase NS_COMPATIBLE_STRUCT;
    CCase NS_POLYMORPHIC_COMPATIBLE_STRUCT;
    CCase NS_EXT;
    CCase NS_POLYMORPHIC_EXT;
    CReturn (Lit true);
    CDefault;
    CReturn (Lit false) ].

(** The three kinds of statement of [stmt] in [cmd]. *)
Definition cmd_of_stmt (s : stmt) : cmd :=
  match s with
  | Case label => CCase label
  | Default => CDefault
  | Return b => CReturn (Lit b)
  end.

(** Control entering a statement list: labels are passed, the other
    statements act on the state in turn, up to a [return] or a [throw]. *)
Fixpoint run_cmds (st : state) (cs : list cmd) : outcome :=
  match cs with
  | [] => Undefined
  | CCase _ :: rest => run_cmds st rest
  | CDefault :: rest => run_cmds st rest
  | CReturn e :: _ => Returned (eval st e) st
  | CWrite addr e :: rest =>
      run_cmds (write st addr (if eval st e then 1 else 0)) rest
  | CNew :: rest => run_cmds (allocate st) rest
  | CThrow :: _ => Thrown st
  end.

(** The statements after the [case] label whose constant equals [c]. *)
Fixpoint cmd_jump_case (c : Z) (cs : list cmd) : option (list cmd) :=
  match cs with
  | [] => None
  | CCase label :: rest =>
      if c =? value label then Some rest else cmd_jump_case c rest
  | _ :: rest => cmd_jump_case c rest
  end.

(** The statements after the [default] label. *)
Fixpoint cmd_jump_default (cs : list cmd) : option (list cmd) :=
  match cs with
  | [] => None
  | CDefault :: rest => Some rest
  | _ :: rest => cmd_jump_default rest
  end.

(** [switch (c) { cs }] as the last statement of a function, started in the
    state [st]: the jump itself leaves the state alone. *)
Definition run_switch (st : state) (c : Z) (cs : list cmd) : outcome :=
  match cmd_jump_case c cs with
  | Some rest => run_cmds st rest
  | None =>
      match cmd_jump_default cs with
      | Some rest => run_cmds st rest
      | None => Undefined
      end
  end.

(** A call [IsNamespacedType(type_id)] made in the state [st]. *)
Definition IsNamespacedType_call (st : state) (type_id : Z) : outcome :=
  run_switch st (static_cast_TypeId type_id) IsNamespacedType_cmds.

(** Closes a goal [in_int32 k] for a literal [k]. *)
Ltac int32_range :=
  unfold in_int32, int32_min, int32_max; simpl; lia.

(** ** The executable semantics and the relation agree *)

Section SwitchSemantics.

Variable c : Z.

Lemma fall_through_FallsTo ss b : fall_through ss = Some b <-> FallsTo ss b.
Proof.
  split.
  - induction ss as [|s ss IH]; simpl; [discriminate|].
    destruct s; intros H.
    + constructor; auto.
    + constructor; auto.
    + injection H as ->. constructor.
  - induction 1; simpl; auto.
Qed.

Lemma JumpsCase_In ss rest : JumpsCase c ss rest -> In c (case_constants ss).
Proof.
  induction 1 as [label rest Hc | s ss rest _ IH]; simpl.
  - left; auto.
  - destruct s; simpl; auto.
Qed.

Lemma jump_case_JumpsCase ss rest :
  jump_case c ss = Some rest -> JumpsCase c ss rest.
Proof.
  induction ss as [|s ss IH]; simpl; [discriminate|].
  destruct s as [label| |b]; intros H; [|constructor 2; auto ..].
  destruct (Z.eqb_spec c (value label)) as [E|_].
  - injection H as <-. constructor 1; exact E.
  - constructor 2; auto.
Qed.

Lemma JumpsCase_jump_case ss rest :
  NoDup (case_constants ss) ->
  JumpsCase c ss rest -> jump_case c ss = Some rest.
Proof.
  intros ND J; induction J as [label rest Hc | s ss rest J IH]; simpl.
  - subst c. rewrite Z.eqb_refl. reflexivity.
  - destruct s as [label| |b]; simpl in ND; auto.
    inversion ND as [|x l Hnotin ND']; subst.
    destruct (Z.eqb_spec c (value label)) as [E|_]; auto.
    exfalso; apply Hnotin. rewrite <- E. eapply JumpsCase_In; eauto.
Qed.

Lemma jump_case_None ss :
  jump_case c ss = None <-> ~ In c (case_constants ss).
Proof.
  induction ss as [|s ss IH]; simpl; [tauto|].
  destruct s as [label| |b]; simpl; auto.
  destruct (Z.eqb_spec c (value label)) as [E|N].
  - split; [discriminate | intros H; exfalso; apply H; left; auto].
  - rewrite IH. split; [intros H [E|I]; [congruence | tauto] | tauto].
Qed.

Lemma jump_default_JumpsDefault ss rest :
  jump_default ss = Some rest -> JumpsDefault ss rest.
Proof.
  induction ss as [|s ss IH]; simpl; [discriminate|].
  destruct s; intros H; [constructor 2; auto| |constructor 2; auto].
  injection H as <-. constructor 1.
Qed.

Lemma JumpsDefault_count ss rest :
  JumpsDefault ss rest -> (1 <= default_count ss)%nat.
Proof.
  induction 1 as [rest | s ss rest _ IH]; simpl; [lia|].
  destruct s; simpl; lia.
Qed.

Lemma JumpsDefault_jump_default ss rest :
  (default_count ss <= 1)%nat ->
  JumpsDefault ss rest -> jump_default ss = Some rest.
Proof.
  intros Hc J; induction J as [rest | s ss rest J IH]; simpl; auto.
  destruct s; simpl in Hc; auto.
  apply JumpsDefault_count in J. lia.
Qed.

(** The executable switch returns [b] exactly when the relation says so. *)
Lemma exec_switch_Returns ss b :
  well_formed_switch ss ->
  exec_switch c ss = Some b <-> Returns ss c b.
Proof.
  intros [ND Hd]; unfold exec_switch; split.
  - destruct (jump_case c ss) as [rest|] eqn:Ec.
    + intros H. apply Returns_case with rest.
      * apply jump_case_JumpsCase; exact Ec.
      * apply fall_through_FallsTo; exact H.
    + destruct (jump_default ss) as [rest|] eqn:Ed; [|discriminate].
      intros H. apply Returns_default with rest.
      * apply jump_case_None; exact Ec.
      * apply jump_default_JumpsDefault; exact Ed.
      * apply fall_through_FallsTo; exact H.
  - intros [rest J F | rest N J F].
    + rewrite (JumpsCase_jump_case _ _ ND J).
      apply fall_through_FallsTo; exact F.
    + apply jump_case_None in N. rewrite N.
      rewrite (JumpsDefault_jump_default _ _ Hd J).
      apply fall_through_FallsTo; exact F.
Qed.

End SwitchSemantics.

(** ** Facts about the enumeration *)

Lemma enumerators_complete (t : TypeId) : In t enumerators.
Proof. destruct t; simpl; tauto. Qed.

Lemma enumerator_of_value (t : TypeId) : enumerator_of (value t) = Some t.
Proof. destruct t; reflexivity. Qed.

Lemma enumerator_of_Some (v : Z) (t : TypeId) :
  enumerator_of v = Some t -> value t = v.
Proof.
  unfold enumerator_of; intros H.
  apply find_some in H as [_ H]. apply Z.eqb_eq; exact H.
Qed.

Lemma In_Zrange (n : nat) : forall lo v,
  In v (Zrange lo n) <-> lo <= v < lo + Z.of_nat n.
Proof.
  induction n as [|n IH]; intros lo v; simpl Zrange.
  - simpl; lia.
  - simpl In. rewrite IH. lia.
Qed.

Lemma Zmem_In (v : Z) (l : list Z) : Zmem v l = true <-> In v l.
Proof.
  unfold Zmem; rewrite existsb_exists; split.
  - intros [x [I E]]. apply Z.eqb_eq in E; subst; exact I.
  - intros I; exists v; split; [exact I | apply Z.eqb_refl].
Qed.

(** Every integer of [1, 45] is named by an enumerator: a check of the 45
    integers, one by one. *)
Lemma range_named :
  forallb (fun v => match enumerator_of v with Some _ => true | None => false end)
          (Zrange 1 45) = true.
Proof. vm_compute; reflexivity. Qed.

Lemma defined_iff_range (v : Z) : (exists t, value t = v) <-> 1 <= v <= 45.
Proof.
  split.
  - intros [t <-]; destruct t; simpl; lia.
  - intros Hv.
    assert (I : In v (Zrange 1 45)) by (apply In_Zrange; lia).
    pose proof (proj1 (forallb_forall _ _) range_named v I) as H; simpl in H.
    destruct (enumerator_of v) as [t|] eqn:E; [|discriminate].
    exists t; apply enumerator_of_Some; exact E.
Qed.

(** ** Facts about the body of [IsNamespacedType] *)

Lemma IsNamespacedType_body_well_formed :
  well_formed_switch IsNamespacedType_body.
Proof.
  split; simpl; [|lia].
  repeat (constructor; [simpl; lia|]); constructor.
Qed.

(** The statement-level run returns what the function computes. *)
Lemma IsNamespacedType_exec_eq (type_id : Z) :
  IsNamespacedType_exec type_id = Some (IsNamespacedType type_id).
Proof.
  unfold IsNamespacedType_exec, IsNamespacedType, exec_switch; simpl.
  repeat (destruct (_ =? _); [reflexivity|]); reflexivity.
Qed.

Lemma IsNamespacedType_returns_iff (type_id : Z) (b : bool) :
  IsNamespacedType_returns type_id b <-> IsNamespacedType type_id = b.
Proof.
  unfold IsNamespacedType_returns.
  rewrite <- (exec_switch_Returns _ _ _ IsNamespacedType_body_well_formed).
  fold (IsNamespacedType_exec type_id). rewrite IsNamespacedType_exec_eq.
  split; congruence.
Qed.

(** The function is membership in the seven listed values. *)
Lemma IsNamespacedType_Zmem (type_id : Z) :
  IsNamespacedType type_id = Zmem type_id namespaced_values.
Proof.
  unfold IsNamespacedType, Zmem, static_cast_TypeId; simpl.
  repeat (destruct (_ =? _); [reflexivity|]); reflexivity.
Qed.

Lemma IsNamespacedType_true_iff (type_id : Z) :
  IsNamespacedType type_id = true <-> In type_id namespaced_values.
Proof. rewrite IsNamespacedType_Zmem; apply Zmem_In. Qed.

Lemma IsNamespacedType_false_iff (type_id : Z) :
  IsNamespacedType type_id = false <-> ~ In type_id namespaced_values.
Proof.
  rewrite <- IsNamespacedType_true_iff.
  destruct (IsNamespacedType type_id); split; congruence.
Qed.

(** ** Facts about a call in a state *)

Lemma IsNamespacedType_cmds_eq :
  IsNamespacedType_cmds = map cmd_of_stmt IsNamespacedType_body.
Proof. reflexivity. Qed.

Lemma run_cmds_of_stmt (st : state) (ss : list stmt) :
  run_cmds st (map cmd_of_stmt ss) =
  match fall_through ss with
  | Some b => Returned b st
  | None => Undefined
  end.
Proof.
  induction ss as [|s ss IH]; simpl; [reflexivity|].
  destruct s; simpl; auto.
Qed.

Lemma cmd_jump_case_of_stmt (c : Z) (ss : list stmt) :
  cmd_jump_case c (map cmd_of_stmt ss) =
  option_map (map cmd_of_stmt) (jump_case c ss).
Proof.
  induction ss as [|s ss IH]; simpl; [reflexivity|].
  destruct s; simpl; auto.
  destruct (c =? value label); simpl; auto.
Qed.

Lemma cmd_jump_default_of_stmt (ss : list stmt) :
  cmd_jump_default (map cmd_of_stmt ss) =
  option_map (map cmd_of_stmt) (jump_default ss).
Proof.
  induction ss as [|s ss IH]; simpl; [reflexivity|].
  destruct s; simpl; auto.
Qed.

(** A body made of labels and [return]s of literals returns what
    [exec_switch] says and hands the state back as it received it. *)
Lemma run_switch_of_stmt (st : state) (c : Z) (ss : list stmt) :
  run_switch st c (map cmd_of_stmt ss) =
  match exec_switch c ss with
  | Some b => Returned b st
  | None => Undefined
  end.
Proof.
  unfold run_switch, exec_switch.
  rewrite cmd_jump_case_of_stmt, cmd_jump_default_of_stmt.
  destruct (jump_case c ss) as [rest|]; simpl.
  - apply run_cmds_of_stmt.
  - destruct (jump_default ss) as [rest|]; simpl; [apply run_cmds_of_stmt | reflexivity].
Qed.

Lemma IsNamespacedType_call_eq (st : state) (type_id : Z) :
  IsNamespacedType_call st type_id = Returned (IsNamespacedType type_id) st.
Proof.
  unfold IsNamespacedType_call.
  rewrite IsNamespacedType_cmds_eq, run_switch_of_stmt.
  fold (IsNamespacedType_exec type_id).
  rewrite IsNamespacedType_exec_eq. reflexivity.
Qed.

(** The semantics does see what a body does to the state and what it takes
    from it: a write or a [new] before the [return] shows in the state handed
    back, a [throw] in the outcome, and a [return] of an object's value in the
    result. *)
Lemma run_switch_sees_write (st : state) (c addr : Z) (b : bool) :
  run_switch st c [CDefault; CWrite addr (Lit true); CReturn (Lit b)] =
  Returned b (write st addr 1).
Proof. reflexivity. Qed.

Lemma run_switch_sees_new (st : state) (c : Z) (b : bool) :
  run_switch st c [CDefault; CNew; CReturn (Lit b)] = Returned b (allocate st).
Proof. reflexivity. Qed.

Lemma run_switch_sees_throw (st : state) (c : Z) :
  run_switch st c [CDefault; CThrow] = Thrown st.
Proof. reflexivity. Qed.

Lemma run_switch_sees_read (st : state) (c addr : Z) :
  run_switch st c [CDefault; CReturn (Read addr)] =
  Returned (negb (store st addr =? 0)) st.
Proof. reflexivity. Qed.

(** ** The registry *)

(** C1: every symbolic tag of the TypeId registry has exactly its published
    wire value, from BOOL = 1 to ARROW_TABLE = 45. *)
Theorem C1_published_wire_values :
  value BOOL = 1 /\
  value INT8 = 2 /\
  value INT16 = 3 /\
  value INT32 = 4 /\
  value VAR_INT32 = 5 /\
  value INT64 = 6 /\
  value VAR_INT64 = 7 /\
  value SLI_INT64 = 8 /\
  value FLOAT16 = 9 /\
  value FLOAT32 = 10 /\
  value FLOAT64 = 11 /\
  value STRING = 12 /\
  value ENUM = 13 /\
  value NS_ENUM = 14 /\
  value STRUCT = 15 /\
  value POLYMORPHIC_STRUCT = 16 /\
  value COMPATIBLE_STRUCT = 17 /\
  value POLYMORPHIC_COMPATIBLE_STRUCT = 18 /\
  value NS_STRUCT = 19 /\
  value NS_POLYMORPHIC_STRUCT = 20 /\
  value NS_COMPATIBLE_STRUCT = 21 /\
  value NS_POLYMORPHIC_COMPATIBLE_STRUCT = 22 /\
  value EXT = 23 /\
  value POLYMORPHIC_EXT = 24 /\
  value NS_EXT = 25 /\
  value NS_POLYMORPHIC_EXT = 26 /\
  value LIST = 27 /\
  value SET = 28 /\
  value MAP = 29 /\
  value DURATION = 30 /\
  value TIMESTAMP = 31 /\
  value LOCAL_DATE = 32 /\
  value DECIMAL = 33 /\
  value BINARY = 34 /\
  value ARRAY = 35 /\
  value BOOL_ARRAY = 36 /\
  value INT8_ARRAY = 37 /\
  value INT16_ARRAY = 38 /\
  value INT32_ARRAY = 39 /\
  value INT64_ARRAY = 40 /\
  value FLOAT16_ARRAY = 41 /\
  value FLOAT32_ARRAY = 42 /\
  value FLOAT64_ARRAY = 43 /\
  value ARROW_RECORD_BATCH = 44 /\
  value ARROW_TABLE = 45.
Proof. repeat split. Qed.

(** C5: the mapping from tags to integers is injective: two distinct
    enumerators never have the same value. *)
Theorem C5_value_injective (t1 t2 : TypeId) :
  t1 <> t2 -> value t1 <> value t2.
Proof.
  intros Hne E. apply Hne.
  pose proof (enumerator_of_value t1) as H1.
  rewrite E, enumerator_of_value in H1. congruence.
Qed.

Lemma C5_value_injective_witness :
  BOOL <> ARROW_TABLE /\ value BOOL <> value ARROW_TABLE.
Proof.
  split; [discriminate | apply (C5_value_injective BOOL ARROW_TABLE); discriminate].
Defined.

(** C7: every value given to an enumerator is small and strictly positive:
    it lies between 1 and 45. *)
Theorem C7_value_range (t : TypeId) : 1 <= value t <= 45.
Proof. destruct t; simpl; lia. Qed.

(** C9: the defined values are the integers 1 to 45 without a gap: a
    32-bit signed integer is the value of some enumerator exactly when it
    lies between 1 and 45. *)
Theorem C9_defined_values_contiguous (v : Z) :
  in_int32 v -> ((exists t, value t = v) <-> 1 <= v <= 45).
Proof. intros _; apply defined_iff_range. Qed.

Lemma C9_defined_values_contiguous_witness :
  in_int32 45 /\ ((exists t, value t = 45) <-> 1 <= 45 <= 45).
Proof.
  split; [int32_range | apply (C9_defined_values_contiguous 45); int32_range].
Defined.

(** ** The classifier *)

(** C2: on the defined range [1, 45], IsNamespacedType returns true exactly
    for the seven values 14, 19, 20, 21, 22, 25 and 26, which are the values of
    the seven NS_ enumerators, and false for every other value of the range. *)
Theorem C2_namespaced_exactly_seven (v : Z) :
  in_int32 v -> 1 <= v <= 45 ->
  (IsNamespacedType v = true <-> In v [14; 19; 20; 21; 22; 25; 26]) /\
  (~ In v [14; 19; 20; 21; 22; 25; 26] -> IsNamespacedType v = false) /\
  [14; 19; 20; 21; 22; 25; 26] =
    map value [NS_ENUM; NS_STRUCT; NS_POLYMORPHIC_STRUCT; NS_COMPATIBLE_STRUCT;
               NS_POLYMORPHIC_COMPATIBLE_STRUCT; NS_EXT; NS_POLYMORPHIC_EXT].
Proof.
  intros _ _; split; [|split].
  - apply IsNamespacedType_true_iff.
  - apply IsNamespacedType_false_iff.
  - reflexivity.
Qed.

Lemma C2_namespaced_exactly_seven_witness :
  in_int32 22 /\ 1 <= 22 <= 45 /\ IsNamespacedType 22 = true.
Proof.
  assert (R : in_int32 22) by int32_range.
  assert (B : 1 <= 22 <= 45) by lia.
  split; [exact R | split; [exact B |]].
  apply (proj1 (C2_namespaced_exactly_seven 22 R B)).
  simpl; tauto.
Defined.

(** C3: for a 32-bit signed integer that no enumerator has as its value
    (an integer outside [1, 45], such as 0, -1 or 1000), IsNamespacedType
    returns false: the call returns normally through the default label. *)
Theorem C3_undefined_not_namespaced (v : Z) :
  in_int32 v -> ~ (exists t, value t = v) ->
  ~ (1 <= v <= 45) /\
  IsNamespacedType v = false /\
  IsNamespacedType_exec v = Some false.
Proof.
  intros _ Hundef.
  assert (Hout : ~ (1 <= v <= 45)) by (rewrite <- defined_iff_range; exact Hundef).
  assert (Hf : IsNamespacedType v = false).
  { apply IsNamespacedType_false_iff; simpl; lia. }
  split; [exact Hout | split; [exact Hf |]].
  rewrite IsNamespacedType_exec_eq, Hf; reflexivity.
Qed.

Lemma C3_undefined_not_namespaced_witness :
  IsNamespacedType 0 = false /\
  IsNamespacedType (-1) = false /\
  IsNamespacedType 1000 = false.
Proof.
  assert (U : forall v, ~ (1 <= v <= 45) -> ~ (exists t, value t = v)).
  { intros v Hv D; apply Hv, defined_iff_range, D. }
  split; [|split].
  - apply (C3_undefined_not_namespaced 0); [int32_range | apply U; lia].
  - apply (C3_undefined_not_namespaced (-1)); [int32_range | apply U; lia].
  - apply (C3_undefined_not_namespaced 1000); [int32_range | apply U; lia].
Defined.

(** C4: IsNamespacedType is total on the 32-bit signed integers and
    has no effect: a call made in any state reaches a return statement and
    yields a boolean, it neither throws nor runs past the switch, and it
    hands back the state it was given, with every object's contents and the
    count of allocations as they were. *)
Theorem C4_total (v : Z) (st : state) :
  in_int32 v ->
  exists b : bool,
    IsNamespacedType_call st v = Returned b st /\
    IsNamespacedType_exec v = Some b /\
    IsNamespacedType_returns v b /\
    IsNamespacedType v = b.
Proof.
  intros _; exists (IsNamespacedType v); split; [|split; [|split]].
  - apply IsNamespacedType_call_eq.
  - apply IsNamespacedType_exec_eq.
  - apply IsNamespacedType_returns_iff; reflexivity.
  - reflexivity.
Qed.

Lemma C4_total_witness :
  in_int32 int32_min /\
  exists b : bool,
    IsNamespacedType_call (mkState (fun a => a + 7) 3) int32_min =
      Returned b (mkState (fun a => a + 7) 3) /\
    IsNamespacedType_exec int32_min = Some b /\
    IsNamespacedType_returns int32_min b /\
    IsNamespacedType int32_min = b.
Proof.
  assert (R : in_int32 int32_min) by int32_range.
  split; [exact R |].
  apply (C4_total int32_min (mkState (fun a => a + 7) 3) R).
Defined.

(** C6: IsNamespacedType is deterministic: two calls on the same 32-bit
    signed integer return the same result, whatever the states they are made
    in; in particular a second call, made in the state the first one left,
    repeats the result of the first. *)
Theorem C6_deterministic (v : Z) (st1 st2 : state) :
  in_int32 v ->
  exists (b : bool) (st1' st2' st1'' : state),
    IsNamespacedType_call st1 v = Returned b st1' /\
    IsNamespacedType_call st2 v = Returned b st2' /\
    IsNamespacedType_call st1' v = Returned b st1''.
Proof.
  intros _. exists (IsNamespacedType v), st1, st2, st1.
  rewrite !IsNamespacedType_call_eq. auto.
Qed.

Lemma C6_deterministic_witness :
  in_int32 19 /\
  exists (b : bool) (st1' st2' st1'' : state),
    IsNamespacedType_call (mkState (fun _ => 0) 0) 19 = Returned b st1' /\
    IsNamespacedType_call (mkState (fun a => a + 1) 5) 19 = Returned b st2' /\
    IsNamespacedType_call st1' 19 = Returned b st1''.
Proof.
  assert (R : in_int32 19) by int32_range.
  split; [exact R |].
  apply (C6_deterministic 19 (mkState (fun _ => 0) 0) (mkState (fun a => a + 1) 5) R).
Defined.

(** C10: the namespaced integers are not an interval: every v in [15, 18]
    and in [23, 24] is classified false although it lies between 14 and 25,
    which are both classified true; so no range check lo <= v <= hi agrees
    with the classifier on 14, v and 25. *)
Theorem C10_namespaced_not_an_interval (v : Z) :
  in_int32 v -> 15 <= v <= 18 \/ 23 <= v <= 24 ->
  IsNamespacedType 14 = true /\
  IsNamespacedType v = false /\
  IsNamespacedType 25 = true /\
  forall lo hi : Z,
    ~ (IsNamespacedType 14 = (lo <=? 14) && (14 <=? hi) /\
       IsNamespacedType v = (lo <=? v) && (v <=? hi) /\
       IsNamespacedType 25 = (lo <=? 25) && (25 <=? hi)).
Proof.
  intros _ Hv.
  assert (Hf : IsNamespacedType v = false).
  { apply IsNamespacedType_false_iff; simpl; lia. }
  split; [reflexivity | split; [exact Hf | split; [reflexivity |]]].
  intros lo hi [H14 [Hg H25]].
  rewrite Hf in Hg.
  change (IsNamespacedType 14) with true in H14.
  change (IsNamespacedType 25) with true in H25.
  symmetry in H14, Hg, H25.
  apply andb_true_iff in H14 as [A1 A2], H25 as [B1 B2].
  apply andb_false_iff in Hg.
  rewrite !Z.leb_le in *. rewrite !Z.leb_gt in Hg. lia.
Qed.

Lemma C10_namespaced_not_an_interval_witness :
  in_int32 16 /\ (15 <= 16 <= 18 \/ 23 <= 16 <= 24) /\
  IsNamespacedType 16 = false.
Proof.
  assert (R : in_int32 16) by int32_range.
  assert (G : 15 <= 16 <= 18 \/ 23 <= 16 <= 24) by lia.
  split; [exact R | split; [exact G |]].
  apply (C10_namespaced_not_an_interval 16 R G).
Defined.

(** ** Further properties of the header *)

Lemma nth_error_Zrange (n : nat) : forall lo i v,
  nth_error (Zrange lo n) i = Some v -> v = lo + Z.of_nat i.
Proof.
  induction n as [|n IH]; intros lo i v; simpl Zrange.
  - destruct i; discriminate.
  - destruct i as [|i]; simpl nth_error.
    + intros H; injection H as <-. lia.
    + intros H; apply IH in H. lia.
Qed.

Lemma enumerator_named_Some (s : string) (t : TypeId) :
  enumerator_named s = Some t -> name t = s.
Proof.
  unfold enumerator_named; intros H.
  apply find_some in H as [_ H]. apply String.eqb_eq; exact H.
Qed.

(** X1: the switch and the naming convention agree: an enumerator is
    classified as namespaced exactly when its identifier starts with NS_. *)
Theorem X1_namespaced_iff_NS_prefix (t : TypeId) :
  IsNamespacedType (value t) = String.prefix "NS_" (name t).
Proof. destruct t; reflexivity. Qed.

(** X2: on every 32-bit signed integer the classifier is the union of
    the three ranges [14,14], [19,22] and [25,26], and no union of two ranges
    agrees with it on all inputs. *)
Theorem X2_three_ranges_exactly :
  (forall v, in_int32 v ->
     IsNamespacedType v =
       in_range 14 14 v || in_range 19 22 v || in_range 25 26 v) /\
  (forall lo1 hi1 lo2 hi2 : Z,
     ~ (forall v, in_int32 v ->
          IsNamespacedType v = in_range lo1 hi1 v || in_range lo2 hi2 v)).
Proof.
  split.
  - intros v _. apply eq_true_iff_eq.
    rewrite IsNamespacedType_true_iff. unfold in_range.
    rewrite !orb_true_iff, !andb_true_iff, !Z.leb_le. simpl. lia.
  - intros lo1 hi1 lo2 hi2 H.
    assert (H14 := H 14 ltac:(int32_range)).
    assert (H16 := H 16 ltac:(int32_range)).
    assert (H19 := H 19 ltac:(int32_range)).
    assert (H23 := H 23 ltac:(int32_range)).
    assert (H25 := H 25 ltac:(int32_range)).
    clear H.
    change (IsNamespacedType 14) with true in H14.
    change (IsNamespacedType 16) with false in H16.
    change (IsNamespacedType 19) with true in H19.
    change (IsNamespacedType 23) with false in H23.
    change (IsNamespacedType 25) with true in H25.
    symmetry in H14, H16, H19, H23, H25. unfold in_range in *.
    rewrite orb_true_iff, !andb_true_iff, !Z.leb_le in H14, H19, H25.
    rewrite orb_false_iff, !andb_false_iff, !Z.leb_gt in H16, H23.
    lia.
Qed.

(** X3: the explicit initialisers follow the declaration order without a
    gap: the enumerator declared at position i (counting from 0) has the value
    i + 1. *)
Theorem X3_declaration_order (i : nat) (t : TypeId) :
  nth_error enumerators i = Some t -> value t = Z.of_nat i + 1.
Proof.
  intros H.
  apply (map_nth_error value) in H.
  change (map value enumerators) with (Zrange 1 45) in H.
  apply nth_error_Zrange in H. lia.
Qed.

Lemma X3_declaration_order_witness :
  nth_error enumerators 28 = Some MAP /\ value MAP = 29.
Proof.
  split; [reflexivity | apply (X3_declaration_order 28 MAP); reflexivity].
Defined.

(** X4: every namespaced enumerator is the NS_ form of another
    enumerator: dropping the prefix NS_ from its identifier gives the
    identifier of an enumerator that is declared earlier and is not
    namespaced. *)
Theorem X4_namespaced_has_plain_form (t : TypeId) :
  IsNamespacedType (value t) = true ->
  exists base : TypeId,
    name t = ("NS_" ++ name base)%string /\
    IsNamespacedType (value base) = false /\
    value base < value t.
Proof.
  intros H.
  destruct t; try discriminate H;
    match goal with
    | |- exists base, name ?t = _ /\ _ =>
        match eval vm_compute in
          (enumerator_named (String.substring 3 (String.length (name t)) (name t)))
        with
        | Some ?b => exists b
        end
    end; repeat split.
Qed.

Lemma X4_namespaced_has_plain_form_witness :
  IsNamespacedType (value NS_POLYMORPHIC_EXT) = true /\
  exists base : TypeId,
    name NS_POLYMORPHIC_EXT = ("NS_" ++ name base)%string /\
    IsNamespacedType (value base) = false /\
    value base < value NS_POLYMORPHIC_EXT.
Proof.
  split; [reflexivity | apply (X4_namespaced_has_plain_form NS_POLYMORPHIC_EXT); reflexivity].
Defined.

(** X5: every enumerator of the enum, struct and ext families that is
    not namespaced has a namespaced form: NS_ followed by its identifier is
    the identifier of an enumerator, and the classifier accepts it. *)
Theorem X5_plain_has_namespaced_form (t : TypeId) :
  mentions "ENUM" (name t) || mentions "STRUCT" (name t)
    || mentions "EXT" (name t) = true ->
  IsNamespacedType (value t) = false ->
  exists ns : TypeId,
    name ns = ("NS_" ++ name t)%string /\
    IsNamespacedType (value ns) = true /\
    value t < value ns.
Proof.
  intros Hfam Hplain.
  destruct t; try discriminate Hfam; try discriminate Hplain;
    match goal with
    | |- exists ns, name ns = (_ ++ name ?t)%string /\ _ =>
        match eval vm_compute in (enumerator_named ("NS_" ++ name t)) with
        | Some ?n => exists n
        end
    end; repeat split.
Qed.

Lemma X5_plain_has_namespaced_form_witness :
  exists ns : TypeId,
    name ns = ("NS_" ++ name COMPATIBLE_STRUCT)%string /\
    IsNamespacedType (value ns) = true /\
    value COMPATIBLE_STRUCT < value ns.
Proof.
  apply (X5_plain_has_namespaced_form COMPATIBLE_STRUCT); reflexivity.
Defined.

(** X6: in the struct family the value is that of STRUCT plus three
    flags: 1 when the identifier mentions POLYMORPHIC, 2 when it mentions
    COMPATIBLE, and 4 when the classifier says namespaced. *)
Theorem X6_struct_family_flags (t : TypeId) :
  mentions "STRUCT" (name t) = true ->
  value t =
    value STRUCT
    + flag (mentions "POLYMORPHIC" (name t))
    + 2 * flag (mentions "COMPATIBLE" (name t))
    + 4 * flag (IsNamespacedType (value t)).
Proof. intros H; destruct t; try discriminate H; reflexivity. Qed.

Lemma X6_struct_family_flags_witness :
  mentions "STRUCT" (name NS_POLYMORPHIC_COMPATIBLE_STRUCT) = true /\
  value NS_POLYMORPHIC_COMPATIBLE_STRUCT = value STRUCT + 1 + 2 * 1 + 4 * 1.
Proof.
  split; [reflexivity |].
  apply (X6_struct_family_flags NS_POLYMORPHIC_COMPATIBLE_STRUCT); reflexivity.
Defined.

(** X7: in the ext family the value is that of EXT plus two flags: 1
    when the identifier mentions POLYMORPHIC and 2 when the classifier says
    namespaced. *)
Theorem X7_ext_family_flags (t : TypeId) :
  mentions "EXT" (name t) = true ->
  value t =
    value EXT
    + flag (mentions "POLYMORPHIC" (name t))
    + 2 * flag (IsNamespacedType (value t)).
Proof. intros H; destruct t; try discriminate H; reflexivity. Qed.

Lemma X7_ext_family_flags_witness :
  mentions "EXT" (name NS_EXT) = true /\ value NS_EXT = value EXT + 0 + 2 * 1.
Proof.
  split; [reflexivity | apply (X7_ext_family_flags NS_EXT); reflexivity].
Defined.

End fury.
